(** * dev-profile: the rendering and activation contract of the two Lit
      components, [profile-card] and [skill-badge].

    The components are embedded shallowly: a component instance is a record of
    its reactive properties, [render] yields the DOM tree its template commits
    to a fresh container, and the two private handlers run in a state monad
    over the instance and the trace of calls they make on the platform
    ([dispatchEvent], [preventDefault]). *)

From Stdlib Require Import String Ascii List Bool NArith Lia.
From ExtLib Require Import Structures.Monad Structures.MonadState.
From ExtLib Require Import Data.Monads.StateMonad.
Import ListNotations.
Import MonadNotation.
Local Open Scope monad_scope.
Local Open Scope string_scope.

(** ** JavaScript values used by the components *)
Module JS.

(** [ToBoolean] on a string: only the empty string is falsy. *)
Definition truthy (s : string) : bool :=
  match s with
  | EmptyString => false
  | String _ _ => true
  end.

Definition digit_of (c : ascii) : option N :=
  let n := N_of_ascii c in
  if ((48 <=? n) && (n <=? 57))%N then Some (n - 48)%N else None.

Fixpoint parse_digits (acc : N) (s : string) : option N :=
  match s with
  | EmptyString => Some acc
  | String c s' =>
      match digit_of c with
      | Some d => parse_digits (10 * acc + d)%N s'
      | None => None
      end
  end.

(** A property key is an array index when it is the canonical decimal
    numeral of an integer below 2^32 - 1. *)
Definition array_index (k : string) : option N :=
  match k with
  | EmptyString => None
  | String "0" EmptyString => Some 0%N
  | String "0" _ => None
  | _ =>
      match parse_digits 0 k with
      | Some n => if (n <? 2 ^ 32 - 1)%N then Some n else None
      | None => None
      end
  end.

(** An ordinary object with string keys, its entries kept in the order
    [Object.keys] enumerates them: array indices ascending, then the other
    keys in the order they were created. *)
Definition object (V : Type) := list (string * V).

Definition keys {V} (o : object V) : list string := map fst o.

Definition has_key {V} (k : string) (o : object V) : bool :=
  existsb (fun kv => String.eqb (fst kv) k) o.

Fixpoint get {V} (k : string) (o : object V) : option V :=
  match o with
  | [] => None
  | (k', v) :: o' => if String.eqb k' k then Some v else get k o'
  end.

Fixpoint overwrite {V} (k : string) (v : V) (o : object V) : object V :=
  match o with
  | [] => []
  | (k', v') :: o' =>
      if String.eqb k' k then (k', v) :: o' else (k', v') :: overwrite k v o'
  end.

Fixpoint insert_index {V} (n : N) (k : string) (v : V) (o : object V)
  : object V :=
  match o with
  | [] => [(k, v)]
  | (k', v') :: o' =>
      match array_index k' with
      | Some m =>
          if (m <? n)%N then (k', v') :: insert_index n k v o'
          else (k, v) :: o
      | None => (k, v) :: o
      end
  end.

(** One property definition of an object literal ([k: v] or [[k]: v]):
    a key already present keeps its place and takes the new value. *)
Definition define {V} (k : string) (v : V) (o : object V) : object V :=
  if has_key k o then overwrite k v o
  else
    match array_index k with
    | Some n => insert_index n k v o
    | None => (o ++ [(k, v)])%list
    end.

End JS.

(** ** The part of the DOM the components touch *)
Module Dom.

(** The two private methods a template binds as listeners. *)
Inductive Listener : Type :=
| HandleClick
| HandleKeyDown.

#[warnings="-register-all"] Inductive Node : Type :=
| Element (tag : string)
          (attributes : list (string * string))
          (listeners : list (string * Listener))
          (children : list Node)
| Text (data : string).

Definition getAttribute (name : string) (n : Node) : option string :=
  match n with
  | Element _ attrs _ _ => JS.get name attrs
  | Text _ => None
  end.

Definition tagName (n : Node) : option string :=
  match n with
  | Element t _ _ _ => Some t
  | Text _ => None
  end.

(** ASCII whitespace, the separators of a class attribute. *)
Definition is_whitespace (c : ascii) : bool :=
  let n := N_of_ascii c in
  ((n =? 9) || (n =? 10) || (n =? 12) || (n =? 13) || (n =? 32))%N.

Definition flush (acc : string) : list string :=
  match acc with
  | EmptyString => []
  | String _ _ => [acc]
  end.

(** Split on ASCII whitespace; [acc] is the token read so far. *)
Fixpoint split_whitespace (acc : string) (s : string) : list string :=
  match s with
  | EmptyString => flush acc
  | String c s' =>
      if is_whitespace c
      then (flush acc ++ split_whitespace EmptyString s')%list
      else split_whitespace (acc ++ String c EmptyString) s'
  end.

Definition tokens (s : string) : list string :=
  split_whitespace EmptyString s.

(** An ordered set keeps the first occurrence of each token. *)
Fixpoint ordered_set (seen : list string) (l : list string) : list string :=
  match l with
  | [] => []
  | x :: r =>
      if existsb (String.eqb x) seen then ordered_set seen r
      else x :: ordered_set (x :: seen) r
  end.

(** [element.classList], read off the [class] attribute. *)
Definition classList (n : Node) : list string :=
  match getAttribute "class" n with
  | Some v => ordered_set [] (tokens v)
  | None => []
  end.

(** All elements with the given tag, the node itself included, in document
    order. *)
Fixpoint elementsByTagName (t : string) (n : Node) : list Node :=
  match n with
  | Element t' _ _ kids =>
      ((if String.eqb t' t then [n] else [])
         ++ flat_map (elementsByTagName t) kids)%list
  | Text _ => []
  end.

(** The init dictionary and type of a [CustomEvent]; [detail] is a plain
    object of strings. *)
Record CustomEvent : Type := new_CustomEvent {
  type : string;
  detail : JS.object string;
  bubbles : bool;
  composed : bool
}.

(** The handlers read nothing of a keyboard event but its [key]. *)
Record KeyboardEvent : Type := { key : string }.

(** Calls a handler makes on the platform, in the order it makes them. *)
Inductive Call : Type :=
| DispatchEvent (ev : CustomEvent)
| PreventDefault (e : KeyboardEvent).

End Dom.

(** ** What the components use of Lit *)
Module Lit.
Import Dom.

(** An object literal, its property definitions taken left to right. *)
Definition object_literal {V} (entries : list (string * V)) : JS.object V :=
  fold_left (fun o kv => JS.define (fst kv) (snd kv) o) entries [].

(** The [classMap] directive as the only expression of a [class]
    attribute: the keys with a truthy value, joined by spaces and padded
    with one space on each side. *)
Definition classMap (classInfo : JS.object bool) : string :=
  " " ++ String.concat " " (JS.keys (filter snd classInfo)) ++ " ".

(** An [html] template is written as the tree it commits to an empty
    container: elements with their attributes and bound listeners, and a
    text node for each text expression.  Text of the template that is only
    white space, and the comment markers Lit leaves around expressions,
    are not part of the tree.

    A child expression: a nested template is committed in place, [null]
    commits no node. *)
Definition child (v : option Node) : list Node :=
  match v with
  | Some n => [n]
  | None => []
  end.

(** A component instance together with the calls its methods have made so
    far, oldest first. *)
Record World (P : Type) : Type := {
  this : P;
  calls : list Call
}.
Arguments this {P} _.
Arguments calls {P} _.

(** A method of a component with properties [P]. *)
Abbreviation method P := (state (World P)).

(** Reading a reactive property, [this.f]. *)
Definition prop {P A} (f : P -> A) : method P A :=
  w <- get ;; ret (f (this w)).

Definition call {P} (c : Call) : method P unit :=
  w <- get ;; put {| this := this w; calls := (calls w ++ [c])%list |}.

(** [this.dispatchEvent(ev)].  The listeners a host has attached run
    outside the component; what they do is not part of the world. *)
Definition dispatchEvent {P} (ev : CustomEvent) : method P unit :=
  call (DispatchEvent ev).

Definition preventDefault {P} (e : KeyboardEvent) : method P unit :=
  call (PreventDefault e).

(** The events among a list of calls. *)
Fixpoint dispatched (cs : list Call) : list CustomEvent :=
  match cs with
  | [] => []
  | DispatchEvent ev :: cs' => ev :: dispatched cs'
  | PreventDefault _ :: cs' => dispatched cs'
  end.

(** The keyboard events among a list of calls whose default action was
    suppressed. *)
Fixpoint prevented (cs : list Call) : list KeyboardEvent :=
  match cs with
  | [] => []
  | PreventDefault e :: cs' => e :: prevented cs'
  | DispatchEvent _ :: cs' => prevented cs'
  end.

(** A simulated user input on the root element. *)
Inductive Input : Type :=
| Click
| KeyDown (e : KeyboardEvent).

End Lit.

(** ** [skill-badge] *)
Module SkillBadge.
Import Dom Lit.

(** The reactive properties.  [level] is declared with the union type of
    the four level names, but it is a [String] property set from an
    attribute, so at run time it holds whatever string the host wrote. *)
Record props : Type := {
  skill : string;
  level : string;
  clickable : bool
}.

Definition defaults : props :=
  {| skill := ""; level := "intermediate"; clickable := false |}.

(** The members of the union type of [level], which are also the four
    level classes of the style sheet. *)
Definition levels : list string :=
  ["beginner"; "intermediate"; "advanced"; "expert"].

Definition is_level_class (c : string) : bool :=
  existsb (String.eqb c) levels.

Definition render : method props Node :=
  lvl <- prop level ;;
  clk <- prop clickable ;;
  skl <- prop skill ;;
  let classes :=
    object_literal [("badge", true); (lvl, true); ("clickable", clk)] in
  ret (Element "span"
         [("class", classMap classes);
          ("part", "badge");
          ("role", if (clk : bool) then "button" else "status");
          ("tabindex", if clk then "0" else "-1");
          ("aria-label", skl ++ " - " ++ lvl ++ " level")]
         [("click", HandleClick); ("keydown", HandleKeyDown)]
         [Text skl]).

Definition _handleClick : method props unit :=
  clk <- prop clickable ;;
  if (clk : bool) then
    skl <- prop skill ;;
    lvl <- prop level ;;
    dispatchEvent
      (new_CustomEvent "badge-click"
         (object_literal [("skill", skl); ("level", lvl)]) true true)
  else ret tt.

Definition _handleKeyDown (e : KeyboardEvent) : method props unit :=
  clk <- prop clickable ;;
  if (clk : bool) && (String.eqb (key e) "Enter" || String.eqb (key e) " ") then
    preventDefault e ;;
    _handleClick
  else ret tt.

Definition deliver (i : Input) : method props unit :=
  match i with
  | Click => _handleClick
  | KeyDown e => _handleKeyDown e
  end.

Fixpoint deliver_all (inputs : list Input) : method props unit :=
  match inputs with
  | [] => ret tt
  | i :: rest => deliver i ;; deliver_all rest
  end.

End SkillBadge.

(** ** [profile-card] *)
Module ProfileCard.
Import Dom Lit.

Record props : Type := {
  name : string;
  title : string;
  avatar : string;
  clickable : bool
}.

Definition defaults : props :=
  {| name := ""; title := ""; avatar := ""; clickable := false |}.

Definition render : method props Node :=
  clk <- prop clickable ;;
  avt <- prop avatar ;;
  nm <- prop name ;;
  ttl <- prop title ;;
  ret (Element "div"
         [("class", "container");
          ("part", "container");
          ("role", if (clk : bool) then "button" else "article");
          ("tabindex", if clk then "0" else "-1")]
         [("click", HandleClick); ("keydown", HandleKeyDown)]
         [Element "div" [("class", "header"); ("part", "header")] []
            (List.app
               (child (if JS.truthy avt
                       then Some (Element "img"
                                    [("class", "avatar");
                                     ("src", avt);
                                     ("alt", "Avatar of " ++ nm);
                                     ("loading", "lazy")] [] [])
                       else None))
               [Element "div" [("class", "info")] []
                  (Element "h2" [("class", "name")] [] [Text nm]
                   :: child (if JS.truthy ttl
                             then Some (Element "p" [("class", "title")] []
                                          [Text ttl])
                             else None))]);
          Element "div" [("class", "content")] []
            [Element "slot" [] [] []]]).

Definition _handleClick : method props unit :=
  clk <- prop clickable ;;
  if (clk : bool) then
    nm <- prop name ;;
    ttl <- prop title ;;
    dispatchEvent
      (new_CustomEvent "profile-click"
         (object_literal [("name", nm); ("title", ttl)]) true true)
  else ret tt.

Definition _handleKeyDown (e : KeyboardEvent) : method props unit :=
  clk <- prop clickable ;;
  if (clk : bool) && (String.eqb (key e) "Enter" || String.eqb (key e) " ") then
    preventDefault e ;;
    _handleClick
  else ret tt.

Definition deliver (i : Input) : method props unit :=
  match i with
  | Click => _handleClick
  | KeyDown e => _handleKeyDown e
  end.

Fixpoint deliver_all (inputs : list Input) : method props unit :=
  match inputs with
  | [] => ret tt
  | i :: rest => deliver i ;; deliver_all rest
  end.

End ProfileCard.

(** ** The events the components announce

    The class comments document one event per component ([@fires
    badge-click], [@fires profile-click]).  These are the events the
    properties below compare the dispatched ones with: the documented type, a
    [detail] holding the identifying properties of the instance, and the two
    flags that let the event bubble and leave the shadow root. *)
Module Announced.
Import Dom.

Definition badge_click (p : SkillBadge.props) : CustomEvent :=
  {| type := "badge-click";
     detail := [("skill", SkillBadge.skill p); ("level", SkillBadge.level p)];
     bubbles := true;
     composed := true |}.

Definition profile_click (p : ProfileCard.props) : CustomEvent :=
  {| type := "profile-click";
     detail := [("name", ProfileCard.name p); ("title", ProfileCard.title p)];
     bubbles := true;
     composed := true |}.

Definition Enter : KeyboardEvent := {| key := "Enter" |}.
Definition Space : KeyboardEvent := {| key := " " |}.

(** The two keys the handlers treat as an activation. *)
Definition activation_key (e : KeyboardEvent) : bool :=
  String.eqb (key e) "Enter" || String.eqb (key e) " ".

End Announced.

(** ** Reading a rendered tree *)
Module Tree.
Import Dom.

Definition childNodes (n : Node) : list Node :=
  match n with
  | Element _ _ _ kids => kids
  | Text _ => []
  end.

(** The listeners bound on one node. *)
Definition eventListeners (n : Node) : list (string * Listener) :=
  match n with
  | Element _ _ ls _ => ls
  | Text _ => []
  end.

(** The listeners bound anywhere in a tree, in document order. *)
Fixpoint allListeners (n : Node) : list (string * Listener) :=
  match n with
  | Element _ _ ls kids => (ls ++ flat_map allListeners kids)%list
  | Text _ => []
  end.

End Tree.

(** ** What a sequence of inputs is expected to leave in the trace *)
Module Activation.
Import Dom Lit.

(** The inputs that count as an activation: a click, or a press of one of
    the two activation keys. *)
Definition activates (i : Input) : bool :=
  match i with
  | Click => true
  | KeyDown e => Announced.activation_key e
  end.

(** The calls one input causes on a clickable component that announces
    [ev]. *)
Definition calls_of (ev : CustomEvent) (i : Input) : list Call :=
  match i with
  | Click => [DispatchEvent ev]
  | KeyDown e =>
      if Announced.activation_key e
      then [PreventDefault e; DispatchEvent ev]
      else []
  end.

(** The presses of an activation key among the inputs, in order. *)
Fixpoint activation_presses (inputs : list Input) : list KeyboardEvent :=
  match inputs with
  | [] => []
  | Click :: rest => activation_presses rest
  | KeyDown e :: rest =>
      if Announced.activation_key e
      then e :: activation_presses rest
      else activation_presses rest
  end.

End Activation.

(** * Properties *)

Import Dom Lit.

(** ** Strings and class tokens *)
Section Tokens.

Lemma string_app_assoc (a b c : string) : (a ++ b) ++ c = a ++ (b ++ c).
Proof.
  induction a as [|x a IH]; simpl; [reflexivity | now rewrite IH].
Qed.

Lemma split_whitespace_space (acc a b : string) :
  split_whitespace acc (a ++ String " " b)
  = (split_whitespace acc a ++ tokens b)%list.
Proof.
  revert acc; induction a as [|x a IH]; intros acc; simpl.
  - reflexivity.
  - destruct (is_whitespace x).
    + rewrite IH. apply app_assoc.
    + apply IH.
Qed.

Lemma split_whitespace_end (acc a : string) :
  split_whitespace acc (a ++ " ") = split_whitespace acc a.
Proof.
  rewrite split_whitespace_space. apply app_nil_r.
Qed.

Lemma tokens_joined (ks : list string) :
  tokens (String.concat " " ks ++ " ") = flat_map tokens ks.
Proof.
  induction ks as [|k ks IH]; [reflexivity|].
  destruct ks as [|k' ks].
  - simpl. unfold tokens. rewrite split_whitespace_end.
    symmetry; apply app_nil_r.
  - change (String.concat " " (k :: k' :: ks))
      with (k ++ String " " (String.concat " " (k' :: ks))).
    rewrite string_app_assoc.
    change (String " " (String.concat " " (k' :: ks)) ++ " ")
      with (String " " (String.concat " " (k' :: ks) ++ " ")).
    unfold tokens at 1. rewrite split_whitespace_space.
    rewrite IH. reflexivity.
Qed.

(** The class tokens of a [classMap] value are the tokens of its enabled
    keys. *)
Lemma tokens_classMap (o : JS.object bool) :
  tokens (classMap o) = flat_map tokens (JS.keys (filter snd o)).
Proof.
  unfold classMap. apply tokens_joined.
Qed.

Lemma existsb_eqb_In (x : string) (l : list string) :
  existsb (String.eqb x) l = true <-> In x l.
Proof.
  rewrite existsb_exists. split.
  - intros [y [Hy E]]. apply String.eqb_eq in E. now subst.
  - intros H. exists x. split; [assumption | apply String.eqb_refl].
Qed.

Lemma In_ordered_set (c : string) (l seen : list string) :
  In c (ordered_set seen l) <-> In c l /\ ~ In c seen.
Proof.
  revert seen; induction l as [|x l IH]; intros seen; simpl.
  - tauto.
  - destruct (existsb (String.eqb x) seen) eqn:E.
    + apply existsb_eqb_In in E. rewrite IH.
      split; [tauto|]. intros [[->|H] Hn]; tauto.
    + assert (Hx : ~ In x seen).
      { intros H. apply existsb_eqb_In in H. congruence. }
      simpl. rewrite IH. simpl.
      destruct (string_dec x c) as [->|Hne]; tauto.
Qed.

End Tokens.

(** ** Object literals *)
Section Objects.
Context {V : Type}.
Implicit Types (k : string) (v : V) (o : JS.object V).

Lemma has_key_In k o : JS.has_key k o = true <-> In k (JS.keys o).
Proof.
  unfold JS.has_key, JS.keys. rewrite existsb_exists, in_map_iff.
  split; intros [kv [H1 H2]]; exists kv.
  - apply String.eqb_eq in H2. tauto.
  - subst k. split; [assumption | apply String.eqb_refl].
Qed.

Lemma keys_overwrite k v o : JS.keys (JS.overwrite k v o) = JS.keys o.
Proof.
  induction o as [|[k' v'] o IH]; simpl; [reflexivity|].
  destruct (String.eqb k' k); simpl; [reflexivity | now rewrite IH].
Qed.

Lemma get_overwrite k v o q :
  In k (JS.keys o) ->
  JS.get q (JS.overwrite k v o)
  = if String.eqb k q then Some v else JS.get q o.
Proof.
  induction o as [|[k' v'] o IH]; simpl; [tauto|]. intros Hin.
  destruct (String.eqb_spec k' k) as [->|Hk]; simpl.
  - destruct (String.eqb k q); reflexivity.
  - destruct Hin as [E|Hin]; [congruence|]. rewrite (IH Hin).
    destruct (String.eqb_spec k' q) as [->|Hq]; [|reflexivity].
    destruct (String.eqb_spec k q); congruence.
Qed.

Lemma keys_insert_index n k v o q :
  In q (JS.keys (JS.insert_index n k v o)) <-> q = k \/ In q (JS.keys o).
Proof.
  induction o as [|[k' v'] o IH]; simpl.
  - intuition congruence.
  - destruct (JS.array_index k') as [m|]; [destruct (m <? n)%N|]; simpl;
      try rewrite IH; intuition congruence.
Qed.

Lemma NoDup_insert_index n k v o :
  ~ In k (JS.keys o) -> NoDup (JS.keys o) ->
  NoDup (JS.keys (JS.insert_index n k v o)).
Proof.
  induction o as [|[k' v'] o IH]; simpl; intros Hk Hnd.
  - constructor; [tauto | constructor].
  - assert (Hall : NoDup (k :: k' :: JS.keys o)) by (constructor; assumption).
    destruct (JS.array_index k') as [m|]; [destruct (m <? n)%N|];
      simpl; try exact Hall.
    inversion Hnd as [|? ? Hk' Hnd']; subst. constructor.
    + rewrite keys_insert_index. intuition congruence.
    + apply IH; tauto.
Qed.

Lemma get_insert_index n k v o q :
  ~ In k (JS.keys o) ->
  JS.get q (JS.insert_index n k v o)
  = if String.eqb k q then Some v else JS.get q o.
Proof.
  induction o as [|[k' v'] o IH]; simpl; intros Hk; [reflexivity|].
  destruct (JS.array_index k') as [m|]; [destruct (m <? n)%N|];
    simpl; try reflexivity.
  rewrite IH by tauto.
  destruct (String.eqb_spec k' q) as [->|]; [|reflexivity].
  destruct (String.eqb_spec k q); [subst; tauto | reflexivity].
Qed.

Lemma get_append k v o q :
  ~ In k (JS.keys o) ->
  JS.get q (o ++ [(k, v)])%list
  = if String.eqb k q then Some v else JS.get q o.
Proof.
  induction o as [|[k' v'] o IH]; simpl; intros Hk; [reflexivity|].
  rewrite IH by tauto.
  destruct (String.eqb_spec k' q) as [->|]; [|reflexivity].
  destruct (String.eqb_spec k q); [subst; tauto | reflexivity].
Qed.

(** Reading a property after one more definition. *)
Lemma get_define k v o q :
  JS.get q (JS.define k v o)
  = if String.eqb k q then Some v else JS.get q o.
Proof.
  unfold JS.define. destruct (JS.has_key k o) eqn:E.
  - apply get_overwrite, has_key_In, E.
  - assert (Hk : ~ In k (JS.keys o)).
    { intros H. apply has_key_In in H. congruence. }
    destruct (JS.array_index k);
      [now apply get_insert_index | now apply get_append].
Qed.

(** An object never holds a key twice. *)
Lemma NoDup_define k v o :
  NoDup (JS.keys o) -> NoDup (JS.keys (JS.define k v o)).
Proof.
  intros Hnd. unfold JS.define. destruct (JS.has_key k o) eqn:E.
  - now rewrite keys_overwrite.
  - assert (Hk : ~ In k (JS.keys o)).
    { intros H. apply has_key_In in H. congruence. }
    destruct (JS.array_index k).
    + now apply NoDup_insert_index.
    + unfold JS.keys. rewrite map_app. simpl.
      apply NoDup_app; [assumption | constructor; [tauto | constructor] |].
      intros x Hx [<-|[]]. exact (Hk Hx).
Qed.

Lemma NoDup_fold_define (es : list (string * V)) o :
  NoDup (JS.keys o) ->
  NoDup (JS.keys (fold_left (fun o kv => JS.define (fst kv) (snd kv) o) es o)).
Proof.
  revert o; induction es as [|[k v] es IH]; intros o Hnd; simpl.
  - assumption.
  - apply IH, NoDup_define, Hnd.
Qed.

Lemma NoDup_object_literal (es : list (string * V)) :
  NoDup (JS.keys (object_literal es)).
Proof.
  apply NoDup_fold_define. constructor.
Qed.

End Objects.

(** The keys [classMap] keeps are the keys whose value is [true]. *)
Lemma enabled_key (o : JS.object bool) (k : string) :
  NoDup (JS.keys o) ->
  In k (JS.keys (filter snd o)) <-> JS.get k o = Some true.
Proof.
  induction o as [|[k' b] o IH]; simpl; intros Hnd.
  - split; [tauto | discriminate].
  - inversion Hnd as [|? ? Hk' Hnd']; subst.
    destruct (String.eqb_spec k' k) as [->|Hne].
    + destruct b; simpl.
      * tauto.
      * rewrite (IH Hnd'). split; [|discriminate].
        intros H. exfalso. apply Hk'. clear - H.
        induction o as [|[k2 b2] o IH]; simpl in *; [discriminate|].
        destruct (String.eqb_spec k2 k); [now left | right; now apply IH].
    + destruct b; simpl; rewrite <- (IH Hnd'); tauto.
Qed.

(** ** [skill-badge]: the classes of the root element *)
Section BadgeClasses.
Import SkillBadge.

Lemma badge_render_pure (w : World props) : execState render w = w.
Proof. reflexivity. Qed.

Lemma badge_class_attribute (w : World props) :
  getAttribute "class" (evalState render w)
  = Some (classMap (object_literal [("badge", true);
                                    (level (this w), true);
                                    ("clickable", clickable (this w))])).
Proof. reflexivity. Qed.

(** Which keys of the class object [classMap] keeps. *)
Lemma badge_enabled_key (lvl : string) (clk : bool) (k : string) :
  In k (JS.keys (filter snd (object_literal [("badge", true);
                                              (lvl, true);
                                              ("clickable", clk)])))
  <-> (k = "clickable" /\ clk = true)
      \/ (k <> "clickable" /\ (k = lvl \/ k = "badge")).
Proof.
  rewrite enabled_key by apply NoDup_object_literal.
  unfold object_literal. simpl fold_left. rewrite !get_define. simpl JS.get.
  destruct (String.eqb_spec "clickable" k) as [<-|Hc].
  - split.
    + intros [= ->]. now left.
    + intros [[_ ->]|[H _]]; [reflexivity | congruence].
  - destruct (String.eqb_spec lvl k) as [<-|Hl].
    + split; [intros _; right; split; [congruence | now left] | reflexivity].
    + destruct (String.eqb_spec "badge" k) as [<-|Hb].
      * split; [intros _; right; split; [congruence | now right]
               | reflexivity].
      * split; [discriminate|].
        intros [[E _]|[_ [E|E]]]; congruence.
Qed.

(** The classes of the root are [badge], [clickable] when the flag is set,
    and whatever tokens the [level] string holds; a level spelled
    [clickable] is switched off with the flag. *)
Lemma badge_classList (w : World props) (c : string) :
  In c (classList (evalState render w))
  <-> c = "badge"
      \/ (c = "clickable" /\ clickable (this w) = true)
      \/ (In c (tokens (level (this w)))
          /\ (level (this w) = "clickable" -> clickable (this w) = true)).
Proof.
  unfold classList. rewrite badge_class_attribute.
  rewrite In_ordered_set, tokens_classMap, in_flat_map.
  split.
  - intros [[k [Hk Hc]] _]. apply badge_enabled_key in Hk.
    destruct Hk as [[-> Hclk] | [Hne [-> | ->]]].
    + destruct Hc as [<-|[]]. right; left. now split.
    + right; right. split; [assumption | congruence].
    + destruct Hc as [<-|[]]. now left.
  - intros H. split; [|simpl; tauto].
    destruct H as [->|[[-> Hclk]|[Hc Himp]]].
    + exists "badge". split; [|now left].
      apply badge_enabled_key. right. split; [discriminate | now right].
    + exists "clickable". split; [|now left].
      apply badge_enabled_key. now left.
    + exists (level (this w)). split; [|assumption].
      apply badge_enabled_key.
      destruct (string_dec (level (this w)) "clickable") as [E|E].
      * left. split; [assumption | now apply Himp].
      * right. split; [assumption | now left].
Qed.

End BadgeClasses.

(** C4.  For each of the four valid [level] values, the root element of a
    rendered skill-badge carries exactly one of the four level classes, the
    one equal to the current [level]: filtering the root's class list down to
    the level classes leaves that single name. *)
Theorem skill_badge_one_level_class (w : World SkillBadge.props) :
  In (SkillBadge.level (this w)) SkillBadge.levels ->
  filter SkillBadge.is_level_class (classList (evalState SkillBadge.render w))
  = [SkillBadge.level (this w)].
Proof.
  destruct w as [[skl lvl clk] cs]. simpl this. simpl SkillBadge.level.
  intros [<-|[<-|[<-|[<-|[]]]]]; destruct clk; reflexivity.
Qed.

Lemma skill_badge_one_level_class_witness :
  In "advanced" SkillBadge.levels
  /\ filter SkillBadge.is_level_class
       (classList (evalState SkillBadge.render
                     {| this := {| SkillBadge.skill := "TypeScript";
                                   SkillBadge.level := "advanced";
                                   SkillBadge.clickable := false |};
                        calls := [] |}))
     = ["advanced"].
Proof.
  assert (H : In "advanced" SkillBadge.levels) by (simpl; tauto).
  split; [exact H|].
  exact (skill_badge_one_level_class
           {| this := {| SkillBadge.skill := "TypeScript";
                         SkillBadge.level := "advanced";
                         SkillBadge.clickable := false |};
              calls := [] |} H).
Defined.

(** C1, as the specification states it, fails: a badge whose [level] is the
    string [guru], which is none of the four level names, renders a root
    whose classes are [badge] and [guru]; the [intermediate] class is absent
    and the class of the invalid string is present. *)
Lemma skill_badge_invalid_level_not_defaulted :
  ~ In "guru" SkillBadge.levels
  /\ classList (evalState SkillBadge.render
                  {| this := {| SkillBadge.skill := "Rust";
                                SkillBadge.level := "guru";
                                SkillBadge.clickable := false |};
                     calls := [] |})
     = ["badge"; "guru"]
  /\ ~ In "intermediate"
        (classList (evalState SkillBadge.render
                      {| this := {| SkillBadge.skill := "Rust";
                                    SkillBadge.level := "guru";
                                    SkillBadge.clickable := false |};
                         calls := [] |})).
Proof.
  split; [|split].
  - simpl. intros [H|[H|[H|[H|[]]]]]; discriminate H.
  - reflexivity.
  - simpl. intros [H|[H|[]]]; discriminate H.
Qed.

(** C1, amended.  For every [level] string outside the four level names,
    [render] neither validates nor falls back: it returns its view without
    making any call and without touching the instance, and the classes of the
    root are exactly [badge], [clickable] when the flag is set, and the
    whitespace-separated tokens of the supplied string (left out only when
    the string is [clickable] and the flag is off).  So [intermediate] is a
    class of the root only if it is a token of the supplied string, and never
    when that string is a single token. *)
Theorem skill_badge_invalid_level_passed_through
  (w : World SkillBadge.props) :
  ~ In (SkillBadge.level (this w)) SkillBadge.levels ->
  execState SkillBadge.render w = w
  /\ (forall c,
        In c (classList (evalState SkillBadge.render w))
        <-> c = "badge"
            \/ (c = "clickable" /\ SkillBadge.clickable (this w) = true)
            \/ (In c (tokens (SkillBadge.level (this w)))
                /\ (SkillBadge.level (this w) = "clickable" ->
                    SkillBadge.clickable (this w) = true)))
  /\ (In "intermediate" (classList (evalState SkillBadge.render w))
      <-> In "intermediate" (tokens (SkillBadge.level (this w))))
  /\ (tokens (SkillBadge.level (this w)) = [SkillBadge.level (this w)] ->
      ~ In "intermediate" (classList (evalState SkillBadge.render w))).
Proof.
  intros Hinvalid.
  assert (Hne : SkillBadge.level (this w) <> "intermediate").
  { intros E. apply Hinvalid. rewrite E. simpl. tauto. }
  assert (Hint : In "intermediate" (classList (evalState SkillBadge.render w))
                 <-> In "intermediate" (tokens (SkillBadge.level (this w)))).
  { rewrite badge_classList. split.
    - intros [E|[[E _]|[H _]]]; [discriminate E | discriminate E | exact H].
    - intros H. right; right. split; [exact H|].
      intros E. rewrite E in H. destruct H as [H|[]]. discriminate H. }
  split; [apply badge_render_pure|].
  split; [intros c; apply badge_classList|].
  split; [exact Hint|].
  intros Hsingle Hin. apply Hint in Hin. rewrite Hsingle in Hin.
  destruct Hin as [E|[]]. congruence.
Qed.

Lemma skill_badge_invalid_level_passed_through_witness :
  ~ In "guru" SkillBadge.levels
  /\ In "guru"
       (classList (evalState SkillBadge.render
                     {| this := {| SkillBadge.skill := "Rust";
                                   SkillBadge.level := "guru";
                                   SkillBadge.clickable := true |};
                        calls := [] |})).
Proof.
  assert (H : ~ In "guru" SkillBadge.levels).
  { simpl. intros [E|[E|[E|[E|[]]]]]; discriminate E. }
  split; [exact H|].
  apply (proj1 (proj2 (skill_badge_invalid_level_passed_through
                         {| this := {| SkillBadge.skill := "Rust";
                                       SkillBadge.level := "guru";
                                       SkillBadge.clickable := true |};
                            calls := [] |} H))).
  right; right. split; [simpl; tauto | reflexivity].
Defined.

(** ** Running the handlers *)
Section Sequencing.
Context {P : Type}.

Lemma execState_seq {A B} (a : method P A) (b : method P B) (w : World P) :
  execState (a ;; b) w = execState b (execState a w).
Proof.
  unfold execState. simpl. destruct (runState a w). reflexivity.
Qed.

Lemma world_eta (w : World P) : {| this := this w; calls := calls w |} = w.
Proof. destruct w; reflexivity. Qed.

Lemma dispatched_app (cs ds : list Call) :
  dispatched (cs ++ ds) = (dispatched cs ++ dispatched ds)%list.
Proof.
  induction cs as [|[ev|e] cs IH]; simpl; [reflexivity | | assumption].
  now rewrite IH.
Qed.

(** A trace made of one event and of suppressed key presses dispatches
    that event only. *)
Lemma dispatched_only (ev0 : CustomEvent) (cs : list Call) :
  Forall (fun c => c = DispatchEvent ev0
                   \/ exists e, c = PreventDefault e
                                /\ Announced.activation_key e = true) cs ->
  forall ev, In ev (dispatched cs) -> ev = ev0.
Proof.
  intros Hall ev Hin.
  induction Hall as [|c cs Hc _ IH]; simpl in Hin; [contradiction|].
  destruct Hc as [->|[e [-> _]]]; simpl in Hin; [|exact (IH Hin)].
  destruct Hin as [<-|Hin]; [reflexivity | exact (IH Hin)].
Qed.

End Sequencing.

(** A handler that made no call, and one that made the calls it shows. *)
Ltac no_new_calls :=
  split; [reflexivity|]; exists []; rewrite app_nil_r; auto.

Ltac new_calls :=
  split; [reflexivity|]; eexists; split; [reflexivity|];
  split; [discriminate|]; repeat constructor; eauto.

Section BadgeHandlers.
Import SkillBadge Announced.

Lemma badge_handleClick_exec (w : World props) :
  execState _handleClick w
  = if clickable (this w)
    then {| this := this w;
            calls := (calls w ++ [DispatchEvent (badge_click (this w))])%list |}
    else w.
Proof.
  destruct w as [[skl lvl clk] cs]. destruct clk; reflexivity.
Qed.

Lemma badge_handleKeyDown_exec (e : KeyboardEvent) (w : World props) :
  execState (_handleKeyDown e) w
  = if clickable (this w) && activation_key e
    then {| this := this w;
            calls := (calls w ++ [PreventDefault e;
                                  DispatchEvent (badge_click (this w))])%list |}
    else w.
Proof.
  destruct w as [[skl lvl clk] cs]. unfold activation_key.
  unfold _handleKeyDown, execState. simpl.
  destruct clk; simpl; [|reflexivity].
  destruct (String.eqb (key e) "Enter" || String.eqb (key e) " "); simpl;
    [|reflexivity].
  rewrite <- app_assoc. reflexivity.
Qed.

(** Whatever is delivered, the properties stay and the trace only grows,
    and it grows only when the badge is clickable. *)
Lemma badge_deliver_frame (i : Input) (w : World props) :
  this (execState (deliver i) w) = this w
  /\ exists cs,
      calls (execState (deliver i) w) = (calls w ++ cs)%list
      /\ (clickable (this w) = false -> cs = [])
      /\ Forall (fun c => c = DispatchEvent (badge_click (this w))
                          \/ exists e, c = PreventDefault e
                                       /\ activation_key e = true) cs.
Proof.
  destruct i as [|e]; simpl deliver.
  - rewrite badge_handleClick_exec. destruct (clickable (this w)); simpl.
    + new_calls.
    + no_new_calls.
  - rewrite badge_handleKeyDown_exec.
    destruct (clickable (this w)); simpl;
      [destruct (activation_key e) eqn:K; simpl|].
    + split; [reflexivity|]. eexists. split; [reflexivity|].
      split; [discriminate|]. constructor; [right; eauto|].
      repeat constructor.
    + no_new_calls.
    + no_new_calls.
Qed.

Lemma badge_deliver_all_frame (inputs : list Input) (w : World props) :
  this (execState (deliver_all inputs) w) = this w
  /\ exists cs,
      calls (execState (deliver_all inputs) w) = (calls w ++ cs)%list
      /\ (clickable (this w) = false -> cs = [])
      /\ Forall (fun c => c = DispatchEvent (badge_click (this w))
                          \/ exists e, c = PreventDefault e
                                       /\ activation_key e = true) cs.
Proof.
  revert w; induction inputs as [|i inputs IH]; intros w.
  - simpl. no_new_calls.
  - change (deliver_all (i :: inputs))
      with (deliver i ;; deliver_all inputs).
    rewrite execState_seq.
    destruct (badge_deliver_frame i w) as [Ht [cs [Hc [Hoff Hall]]]].
    destruct (IH (execState (deliver i) w)) as [Ht' [cs' [Hc' [Hoff' Hall']]]].
    rewrite Ht in *. split; [assumption|].
    exists (cs ++ cs')%list. split; [|split].
    + rewrite Hc', Hc. symmetry; apply app_assoc.
    + intros Hclk. now rewrite Hoff, Hoff'.
    + apply Forall_app. now split.
Qed.

End BadgeHandlers.

Section CardHandlers.
Import ProfileCard Announced.

Lemma card_handleClick_exec (w : World props) :
  execState _handleClick w
  = if clickable (this w)
    then {| this := this w;
            calls := (calls w ++ [DispatchEvent (profile_click (this w))])%list |}
    else w.
Proof.
  destruct w as [[nm ttl avt clk] cs]. destruct clk; reflexivity.
Qed.

Lemma card_handleKeyDown_exec (e : KeyboardEvent) (w : World props) :
  execState (_handleKeyDown e) w
  = if clickable (this w) && activation_key e
    then {| this := this w;
            calls := (calls w ++ [PreventDefault e;
                                  DispatchEvent (profile_click (this w))])%list |}
    else w.
Proof.
  destruct w as [[nm ttl avt clk] cs]. unfold activation_key.
  unfold _handleKeyDown, execState. simpl.
  destruct clk; simpl; [|reflexivity].
  destruct (String.eqb (key e) "Enter" || String.eqb (key e) " "); simpl;
    [|reflexivity].
  rewrite <- app_assoc. reflexivity.
Qed.

(** Whatever is delivered, the properties stay and the trace only grows,
    and it grows only when the card is clickable. *)
Lemma card_deliver_frame (i : Input) (w : World props) :
  this (execState (deliver i) w) = this w
  /\ exists cs,
      calls (execState (deliver i) w) = (calls w ++ cs)%list
      /\ (clickable (this w) = false -> cs = [])
      /\ Forall (fun c => c = DispatchEvent (profile_click (this w))
                          \/ exists e, c = PreventDefault e
                                       /\ activation_key e = true) cs.
Proof.
  destruct i as [|e]; simpl deliver.
  - rewrite card_handleClick_exec. destruct (clickable (this w)); simpl.
    + new_calls.
    + no_new_calls.
  - rewrite card_handleKeyDown_exec.
    destruct (clickable (this w)); simpl;
      [destruct (activation_key e) eqn:K; simpl|].
    + split; [reflexivity|]. eexists. split; [reflexivity|].
      split; [discriminate|]. constructor; [right; eauto|].
      repeat constructor.
    + no_new_calls.
    + no_new_calls.
Qed.

Lemma card_deliver_all_frame (inputs : list Input) (w : World props) :
  this (execState (deliver_all inputs) w) = this w
  /\ exists cs,
      calls (execState (deliver_all inputs) w) = (calls w ++ cs)%list
      /\ (clickable (this w) = false -> cs = [])
      /\ Forall (fun c => c = DispatchEvent (profile_click (this w))
                          \/ exists e, c = PreventDefault e
                                       /\ activation_key e = true) cs.
Proof.
  revert w; induction inputs as [|i inputs IH]; intros w.
  - simpl. no_new_calls.
  - change (deliver_all (i :: inputs))
      with (deliver i ;; deliver_all inputs).
    rewrite execState_seq.
    destruct (card_deliver_frame i w) as [Ht [cs [Hc [Hoff Hall]]]].
    destruct (IH (execState (deliver i) w)) as [Ht' [cs' [Hc' [Hoff' Hall']]]].
    rewrite Ht in *. split; [assumption|].
    exists (cs ++ cs')%list. split; [|split].
    + rewrite Hc', Hc. symmetry; apply app_assoc.
    + intros Hclk. now rewrite Hoff, Hoff'.
    + apply Forall_app. now split.
Qed.

End CardHandlers.

(** ** Activation *)

(** C2.  With the [clickable] flag off, no sequence of clicks and key
    presses delivered to [_handleClick] and [_handleKeyDown] makes either
    component dispatch an event: the events of the trace are those that were
    there before. *)
Theorem non_clickable_never_dispatches :
  (forall (w : World ProfileCard.props) (inputs : list Input),
      ProfileCard.clickable (this w) = false ->
      dispatched (calls (execState (ProfileCard.deliver_all inputs) w))
      = dispatched (calls w))
  /\ (forall (w : World SkillBadge.props) (inputs : list Input),
        SkillBadge.clickable (this w) = false ->
        dispatched (calls (execState (SkillBadge.deliver_all inputs) w))
        = dispatched (calls w)).
Proof.
  split; intros w inputs Hoff.
  - destruct (card_deliver_all_frame inputs w) as [_ [cs [Hc [Hnil _]]]].
    rewrite Hc, (Hnil Hoff), app_nil_r. reflexivity.
  - destruct (badge_deliver_all_frame inputs w) as [_ [cs [Hc [Hnil _]]]].
    rewrite Hc, (Hnil Hoff), app_nil_r. reflexivity.
Qed.

Lemma non_clickable_never_dispatches_witness :
  dispatched
    (calls (execState
              (SkillBadge.deliver_all
                 [Click; KeyDown Announced.Enter; KeyDown Announced.Space;
                  Click])
              {| this := {| SkillBadge.skill := "TypeScript";
                            SkillBadge.level := "advanced";
                            SkillBadge.clickable := false |};
                 calls := [] |}))
  = [].
Proof.
  exact (proj2 non_clickable_never_dispatches
           {| this := {| SkillBadge.skill := "TypeScript";
                         SkillBadge.level := "advanced";
                         SkillBadge.clickable := false |};
              calls := [] |}
           [Click; KeyDown Announced.Enter; KeyDown Announced.Space; Click]
           eq_refl).
Defined.

(** C3.  With [clickable] on and the properties fixed, a click, an Enter
    press and a Space press each add exactly one event to those dispatched,
    and it is the same event in the three cases, so the payloads agree; a
    press of any other key changes nothing at all.  (The two key presses
    also suppress the default action, see [activation_key_prevents_default].) *)
Theorem keyboard_activation_matches_click :
  (forall w : World ProfileCard.props,
      ProfileCard.clickable (this w) = true ->
      dispatched (calls (execState ProfileCard._handleClick w))
      = (dispatched (calls w) ++ [Announced.profile_click (this w)])%list
      /\ dispatched
           (calls (execState (ProfileCard._handleKeyDown Announced.Enter) w))
         = (dispatched (calls w) ++ [Announced.profile_click (this w)])%list
      /\ dispatched
           (calls (execState (ProfileCard._handleKeyDown Announced.Space) w))
         = (dispatched (calls w) ++ [Announced.profile_click (this w)])%list
      /\ (forall e, key e <> "Enter" -> key e <> " " ->
                    execState (ProfileCard._handleKeyDown e) w = w))
  /\ (forall w : World SkillBadge.props,
        SkillBadge.clickable (this w) = true ->
        dispatched (calls (execState SkillBadge._handleClick w))
        = (dispatched (calls w) ++ [Announced.badge_click (this w)])%list
        /\ dispatched
             (calls (execState (SkillBadge._handleKeyDown Announced.Enter) w))
           = (dispatched (calls w) ++ [Announced.badge_click (this w)])%list
        /\ dispatched
             (calls (execState (SkillBadge._handleKeyDown Announced.Space) w))
           = (dispatched (calls w) ++ [Announced.badge_click (this w)])%list
        /\ (forall e, key e <> "Enter" -> key e <> " " ->
                      execState (SkillBadge._handleKeyDown e) w = w)).
Proof.
  split; intros w Hon.
  - rewrite card_handleClick_exec, !card_handleKeyDown_exec, Hon. simpl.
    rewrite !dispatched_app. repeat split; try reflexivity.
    intros e HE HS. rewrite card_handleKeyDown_exec.
    unfold Announced.activation_key.
    apply String.eqb_neq in HE, HS. rewrite HE, HS, andb_false_r. reflexivity.
  - rewrite badge_handleClick_exec, !badge_handleKeyDown_exec, Hon. simpl.
    rewrite !dispatched_app. repeat split; try reflexivity.
    intros e HE HS. rewrite badge_handleKeyDown_exec.
    unfold Announced.activation_key.
    apply String.eqb_neq in HE, HS. rewrite HE, HS, andb_false_r. reflexivity.
Qed.

Lemma keyboard_activation_matches_click_witness :
  dispatched
    (calls (execState (ProfileCard._handleKeyDown Announced.Enter)
              {| this := {| ProfileCard.name := "Sarah Johnson";
                            ProfileCard.title := "Frontend Developer";
                            ProfileCard.avatar := "";
                            ProfileCard.clickable := true |};
                 calls := [] |}))
  = [{| type := "profile-click";
        detail := [("name", "Sarah Johnson"); ("title", "Frontend Developer")];
        bubbles := true;
        composed := true |}].
Proof.
  exact (proj1 (proj2 (proj1 keyboard_activation_matches_click
                         {| this := {| ProfileCard.name := "Sarah Johnson";
                                       ProfileCard.title := "Frontend Developer";
                                       ProfileCard.avatar := "";
                                       ProfileCard.clickable := true |};
                            calls := [] |}
                         eq_refl))).
Defined.

Lemma prevented_app (cs ds : list Call) :
  prevented (cs ++ ds) = (prevented cs ++ prevented ds)%list.
Proof.
  induction cs as [|[ev|e] cs IH]; simpl; [reflexivity | assumption |].
  now rewrite IH.
Qed.

(** On a clickable component a press of Enter or Space does suppress the
    default action, once, before the event goes out. *)
Lemma activation_key_prevents_default :
  (forall (w : World ProfileCard.props) e,
      ProfileCard.clickable (this w) = true ->
      Announced.activation_key e = true ->
      calls (execState (ProfileCard._handleKeyDown e) w)
      = (calls w ++ [PreventDefault e;
                     DispatchEvent (Announced.profile_click (this w))])%list)
  /\ (forall (w : World SkillBadge.props) e,
        SkillBadge.clickable (this w) = true ->
        Announced.activation_key e = true ->
        calls (execState (SkillBadge._handleKeyDown e) w)
        = (calls w ++ [PreventDefault e;
                       DispatchEvent (Announced.badge_click (this w))])%list).
Proof.
  split; intros w e Hon Hkey.
  - rewrite card_handleKeyDown_exec, Hon, Hkey. reflexivity.
  - rewrite badge_handleKeyDown_exec, Hon, Hkey. reflexivity.
Qed.

(** C8.  Every event either component dispatches has [bubbles] and
    [composed] set, so it reaches the ancestors and crosses the shadow
    boundary, and its [detail] is the plain object of the identifying
    properties as they are when the handler runs: [name] and [title] for the
    card, [skill] and [level] for the badge.  This holds for the events one
    click or key press adds in any world, and so for all the events of any
    sequence of clicks and key presses on an instance with properties [p]. *)
Theorem dispatched_events_bubble_composed_snapshot :
  (forall (w : World ProfileCard.props) (i : Input) (ev : CustomEvent),
      In ev (dispatched (calls (execState (ProfileCard.deliver i) w))) ->
      In ev (dispatched (calls w))
      \/ (type ev = "profile-click"
          /\ bubbles ev = true
          /\ composed ev = true
          /\ detail ev = [("name", ProfileCard.name (this w));
                          ("title", ProfileCard.title (this w))]))
  /\ (forall (p : ProfileCard.props) (inputs : list Input) (ev : CustomEvent),
        In ev (dispatched
                 (calls (execState (ProfileCard.deliver_all inputs)
                           {| this := p; calls := [] |}))) ->
        type ev = "profile-click"
        /\ bubbles ev = true
        /\ composed ev = true
        /\ detail ev = [("name", ProfileCard.name p);
                        ("title", ProfileCard.title p)])
  /\ (forall (w : World SkillBadge.props) (i : Input) (ev : CustomEvent),
        In ev (dispatched (calls (execState (SkillBadge.deliver i) w))) ->
        In ev (dispatched (calls w))
        \/ (type ev = "badge-click"
            /\ bubbles ev = true
            /\ composed ev = true
            /\ detail ev = [("skill", SkillBadge.skill (this w));
                            ("level", SkillBadge.level (this w))]))
  /\ (forall (p : SkillBadge.props) (inputs : list Input) (ev : CustomEvent),
        In ev (dispatched
                 (calls (execState (SkillBadge.deliver_all inputs)
                           {| this := p; calls := [] |}))) ->
        type ev = "badge-click"
        /\ bubbles ev = true
        /\ composed ev = true
        /\ detail ev = [("skill", SkillBadge.skill p);
                        ("level", SkillBadge.level p)]).
Proof.
  split; [|split; [|split]].
  - intros w i ev Hin.
    destruct (card_deliver_frame i w) as [_ [cs [Hc [_ Hall]]]].
    rewrite Hc, dispatched_app in Hin. apply in_app_or in Hin.
    destruct Hin as [Hin|Hin]; [now left | right].
    rewrite (dispatched_only _ _ Hall ev Hin). repeat split.
  - intros p inputs ev Hin.
    destruct (card_deliver_all_frame inputs {| this := p; calls := [] |})
      as [_ [cs [Hc [_ Hall]]]].
    rewrite Hc in Hin. simpl in Hin, Hall.
    rewrite (dispatched_only _ _ Hall ev Hin). repeat split.
  - intros w i ev Hin.
    destruct (badge_deliver_frame i w) as [_ [cs [Hc [_ Hall]]]].
    rewrite Hc, dispatched_app in Hin. apply in_app_or in Hin.
    destruct Hin as [Hin|Hin]; [now left | right].
    rewrite (dispatched_only _ _ Hall ev Hin). repeat split.
  - intros p inputs ev Hin.
    destruct (badge_deliver_all_frame inputs {| this := p; calls := [] |})
      as [_ [cs [Hc [_ Hall]]]].
    rewrite Hc in Hin. simpl in Hin, Hall.
    rewrite (dispatched_only _ _ Hall ev Hin). repeat split.
Qed.

Lemma dispatched_events_bubble_composed_snapshot_witness :
  In {| type := "badge-click";
        detail := [("skill", "Lit"); ("level", "expert")];
        bubbles := true;
        composed := true |}
    (dispatched
       (calls (execState (SkillBadge.deliver_all [KeyDown Announced.Space])
                 {| this := {| SkillBadge.skill := "Lit";
                               SkillBadge.level := "expert";
                               SkillBadge.clickable := true |};
                    calls := [] |})))
  /\ detail {| type := "badge-click";
               detail := [("skill", "Lit"); ("level", "expert")];
               bubbles := true;
               composed := true |}
     = [("skill", "Lit"); ("level", "expert")].
Proof.
  assert (H : In {| type := "badge-click";
                    detail := [("skill", "Lit"); ("level", "expert")];
                    bubbles := true;
                    composed := true |}
                (dispatched
                   (calls (execState
                             (SkillBadge.deliver_all [KeyDown Announced.Space])
                             {| this := {| SkillBadge.skill := "Lit";
                                           SkillBadge.level := "expert";
                                           SkillBadge.clickable := true |};
                                calls := [] |})))).
  { simpl. left. reflexivity. }
  split; [exact H|].
  exact (proj2 (proj2 (proj2
           (proj2 (proj2 (proj2 dispatched_events_bubble_composed_snapshot))
              _ _ _ H)))).
Defined.

(** C9.  The two handlers of either component leave the properties of the
    instance as they were, for every instance and every key; so does any
    sequence of clicks and key presses. *)
Theorem handlers_keep_properties :
  (forall w : World ProfileCard.props,
      this (execState ProfileCard._handleClick w) = this w)
  /\ (forall (e : KeyboardEvent) (w : World ProfileCard.props),
        this (execState (ProfileCard._handleKeyDown e) w) = this w)
  /\ (forall (inputs : list Input) (w : World ProfileCard.props),
        this (execState (ProfileCard.deliver_all inputs) w) = this w)
  /\ (forall w : World SkillBadge.props,
        this (execState SkillBadge._handleClick w) = this w)
  /\ (forall (e : KeyboardEvent) (w : World SkillBadge.props),
        this (execState (SkillBadge._handleKeyDown e) w) = this w)
  /\ (forall (inputs : list Input) (w : World SkillBadge.props),
        this (execState (SkillBadge.deliver_all inputs) w) = this w).
Proof.
  repeat split.
  - intros w. exact (proj1 (card_deliver_frame Click w)).
  - intros e w. exact (proj1 (card_deliver_frame (KeyDown e) w)).
  - intros inputs w. exact (proj1 (card_deliver_all_frame inputs w)).
  - intros w. exact (proj1 (badge_deliver_frame Click w)).
  - intros e w. exact (proj1 (badge_deliver_frame (KeyDown e) w)).
  - intros inputs w. exact (proj1 (badge_deliver_all_frame inputs w)).
Qed.

(** C10.  With the [clickable] flag off, [_handleKeyDown] never calls
    [preventDefault], whatever the key, Enter and Space included: it makes
    no call at all, and the suppressed key events of the trace are those that
    were there before. *)
Theorem non_clickable_keydown_keeps_default :
  (forall (w : World ProfileCard.props) (e : KeyboardEvent),
      ProfileCard.clickable (this w) = false ->
      calls (execState (ProfileCard._handleKeyDown e) w) = calls w
      /\ prevented (calls (execState (ProfileCard._handleKeyDown e) w))
         = prevented (calls w))
  /\ (forall (w : World SkillBadge.props) (e : KeyboardEvent),
        SkillBadge.clickable (this w) = false ->
        calls (execState (SkillBadge._handleKeyDown e) w) = calls w
        /\ prevented (calls (execState (SkillBadge._handleKeyDown e) w))
           = prevented (calls w)).
Proof.
  split; intros w e Hoff.
  - rewrite card_handleKeyDown_exec, Hoff. simpl. split; reflexivity.
  - rewrite badge_handleKeyDown_exec, Hoff. simpl. split; reflexivity.
Qed.

Lemma non_clickable_keydown_keeps_default_witness :
  prevented
    (calls (execState (ProfileCard._handleKeyDown Announced.Space)
              {| this := {| ProfileCard.name := "John Doe";
                            ProfileCard.title := "Frontend Developer";
                            ProfileCard.avatar := "https://example.com/avatar.jpg";
                            ProfileCard.clickable := false |};
                 calls := [] |}))
  = [].
Proof.
  exact (proj2 (proj1 non_clickable_keydown_keeps_default
                  {| this := {| ProfileCard.name := "John Doe";
                                ProfileCard.title := "Frontend Developer";
                                ProfileCard.avatar :=
                                  "https://example.com/avatar.jpg";
                                ProfileCard.clickable := false |};
                     calls := [] |}
                  Announced.Space eq_refl)).
Defined.

(** ** Rendering *)

(** [render] reads the properties and nothing else of the world. *)
Lemma card_render_reads_properties (w w' : World ProfileCard.props) :
  this w = this w' ->
  evalState ProfileCard.render w = evalState ProfileCard.render w'.
Proof.
  destruct w as [p cs], w' as [p' cs']. simpl. intros ->. reflexivity.
Qed.

Lemma badge_render_reads_properties (w w' : World SkillBadge.props) :
  this w = this w' ->
  evalState SkillBadge.render w = evalState SkillBadge.render w'.
Proof.
  destruct w as [p cs], w' as [p' cs']. simpl. intros ->. reflexivity.
Qed.

(** C5.  A rendered profile-card holds no [img] element when [avatar] is the
    empty string; when [avatar] is not empty it holds exactly one, whose
    [alt] text is ["Avatar of "] followed by [name] and whose [src] is the
    avatar. *)
Theorem profile_card_avatar_image (w : World ProfileCard.props) :
  (ProfileCard.avatar (this w) = "" ->
   elementsByTagName "img" (evalState ProfileCard.render w) = [])
  /\ (ProfileCard.avatar (this w) <> "" ->
      exists img,
        elementsByTagName "img" (evalState ProfileCard.render w) = [img]
        /\ getAttribute "alt" img
           = Some ("Avatar of " ++ ProfileCard.name (this w))
        /\ getAttribute "src" img = Some (ProfileCard.avatar (this w))).
Proof.
  destruct w as [[nm ttl avt clk] cs]. simpl this. simpl ProfileCard.avatar.
  simpl ProfileCard.name. split.
  - intros ->. destruct ttl; reflexivity.
  - intros Havt. destruct avt as [|a avt]; [congruence|].
    eexists. split; [destruct ttl; reflexivity|].
    split; reflexivity.
Qed.

Lemma profile_card_avatar_image_witness :
  elementsByTagName "img"
    (evalState ProfileCard.render
       {| this := {| ProfileCard.name := "Sarah Johnson";
                     ProfileCard.title := "Frontend Developer";
                     ProfileCard.avatar := "";
                     ProfileCard.clickable := true |};
          calls := [] |})
  = []
  /\ exists img,
      elementsByTagName "img"
        (evalState ProfileCard.render
           {| this := {| ProfileCard.name := "John Doe";
                         ProfileCard.title := "Frontend Developer";
                         ProfileCard.avatar := "https://example.com/avatar.jpg";
                         ProfileCard.clickable := false |};
              calls := [] |})
      = [img]
      /\ getAttribute "alt" img = Some "Avatar of John Doe"
      /\ getAttribute "src" img = Some "https://example.com/avatar.jpg".
Proof.
  split.
  - exact (proj1 (profile_card_avatar_image
                    {| this := {| ProfileCard.name := "Sarah Johnson";
                                  ProfileCard.title := "Frontend Developer";
                                  ProfileCard.avatar := "";
                                  ProfileCard.clickable := true |};
                       calls := [] |}) eq_refl).
  - apply (proj2 (profile_card_avatar_image
                    {| this := {| ProfileCard.name := "John Doe";
                                  ProfileCard.title := "Frontend Developer";
                                  ProfileCard.avatar :=
                                    "https://example.com/avatar.jpg";
                                  ProfileCard.clickable := false |};
                       calls := [] |})).
    simpl. discriminate.
Defined.

(** C6.  [render] is deterministic for both components: two calls in a row
    return the same view and leave the world as it was; the view is the same
    whatever calls the instance has made before, so it depends on the
    properties only; and clicks and key presses between two calls, which
    change no property, do not change the view either. *)
Theorem render_deterministic :
  (forall w : World ProfileCard.props,
      runState (v1 <- ProfileCard.render ;;
                v2 <- ProfileCard.render ;;
                ret (v1, v2)) w
      = ((evalState ProfileCard.render w, evalState ProfileCard.render w), w))
  /\ (forall (p : ProfileCard.props) (cs cs' : list Call),
        evalState ProfileCard.render {| this := p; calls := cs |}
        = evalState ProfileCard.render {| this := p; calls := cs' |})
  /\ (forall (inputs : list Input) (w : World ProfileCard.props),
        evalState ProfileCard.render
          (execState (ProfileCard.deliver_all inputs) w)
        = evalState ProfileCard.render w)
  /\ (forall w : World SkillBadge.props,
        runState (v1 <- SkillBadge.render ;;
                  v2 <- SkillBadge.render ;;
                  ret (v1, v2)) w
        = ((evalState SkillBadge.render w, evalState SkillBadge.render w), w))
  /\ (forall (p : SkillBadge.props) (cs cs' : list Call),
        evalState SkillBadge.render {| this := p; calls := cs |}
        = evalState SkillBadge.render {| this := p; calls := cs' |})
  /\ (forall (inputs : list Input) (w : World SkillBadge.props),
        evalState SkillBadge.render
          (execState (SkillBadge.deliver_all inputs) w)
        = evalState SkillBadge.render w).
Proof.
  repeat split.
  - intros inputs w. apply card_render_reads_properties.
    exact (proj1 (card_deliver_all_frame inputs w)).
  - intros inputs w. apply badge_render_reads_properties.
    exact (proj1 (badge_deliver_all_frame inputs w)).
Qed.

(** C7.  The root element of either rendered component has [tabindex] 0 and
    [role] button when [clickable] is on; when it is off the [tabindex] is -1
    and the [role] is that of static content, [article] for the card and
    [status] for the badge. *)
Theorem root_tabindex_and_role :
  (forall w : World ProfileCard.props,
      tagName (evalState ProfileCard.render w) = Some "div"
      /\ getAttribute "tabindex" (evalState ProfileCard.render w)
         = Some (if ProfileCard.clickable (this w) then "0" else "-1")
      /\ getAttribute "role" (evalState ProfileCard.render w)
         = Some (if ProfileCard.clickable (this w)
                 then "button" else "article"))
  /\ (forall w : World SkillBadge.props,
        tagName (evalState SkillBadge.render w) = Some "span"
        /\ getAttribute "tabindex" (evalState SkillBadge.render w)
           = Some (if SkillBadge.clickable (this w) then "0" else "-1")
        /\ getAttribute "role" (evalState SkillBadge.render w)
           = Some (if SkillBadge.clickable (this w)
                   then "button" else "status")).
Proof.
  split; intros w; repeat split.
Qed.

(** ** Two concrete instances *)

(** A clickable card without avatar: the whole view, and the one event a
    click dispatches. *)
Example card_sarah_johnson :
  runState (v <- ProfileCard.render ;; ProfileCard._handleClick ;; ret v)
    {| this := {| ProfileCard.name := "Sarah Johnson";
                  ProfileCard.title := "Frontend Developer";
                  ProfileCard.avatar := "";
                  ProfileCard.clickable := true |};
       calls := [] |}
  = (Element "div"
       [("class", "container"); ("part", "container");
        ("role", "button"); ("tabindex", "0")]
       [("click", HandleClick); ("keydown", HandleKeyDown)]
       [Element "div" [("class", "header"); ("part", "header")] []
          [Element "div" [("class", "info")] []
             [Element "h2" [("class", "name")] [] [Text "Sarah Johnson"];
              Element "p" [("class", "title")] []
                [Text "Frontend Developer"]]];
        Element "div" [("class", "content")] [] [Element "slot" [] [] []]],
     {| this := {| ProfileCard.name := "Sarah Johnson";
                   ProfileCard.title := "Frontend Developer";
                   ProfileCard.avatar := "";
                   ProfileCard.clickable := true |};
        calls := [DispatchEvent
                    {| type := "profile-click";
                       detail := [("name", "Sarah Johnson");
                                  ("title", "Frontend Developer")];
                       bubbles := true;
                       composed := true |}] |}).
Proof. reflexivity. Qed.

(** A badge that is not clickable: the whole view, and a click that
    dispatches nothing. *)
Example badge_typescript_advanced :
  runState (v <- SkillBadge.render ;; SkillBadge._handleClick ;; ret v)
    {| this := {| SkillBadge.skill := "TypeScript";
                  SkillBadge.level := "advanced";
                  SkillBadge.clickable := false |};
       calls := [] |}
  = (Element "span"
       [("class", " badge advanced "); ("part", "badge");
        ("role", "status"); ("tabindex", "-1");
        ("aria-label", "TypeScript - advanced level")]
       [("click", HandleClick); ("keydown", HandleKeyDown)]
       [Text "TypeScript"],
     {| this := {| SkillBadge.skill := "TypeScript";
                   SkillBadge.level := "advanced";
                   SkillBadge.clickable := false |};
        calls := [] |}).
Proof. reflexivity. Qed.

(** A level that is an array index moves to the front of the class object,
    and one spelled [clickable] is overwritten by the flag. *)
Example badge_class_attribute_order :
  getAttribute "class"
    (evalState SkillBadge.render
       {| this := {| SkillBadge.skill := "Lit";
                     SkillBadge.level := "7";
                     SkillBadge.clickable := true |};
          calls := [] |})
  = Some " 7 badge clickable "
  /\ getAttribute "class"
       (evalState SkillBadge.render
          {| this := {| SkillBadge.skill := "Lit";
                        SkillBadge.level := "clickable";
                        SkillBadge.clickable := false |};
             calls := [] |})
     = Some " badge ".
Proof. split; reflexivity. Qed.

(** * Further properties of the two components *)

(** ** The trace of a sequence of inputs *)
Section Traces.
Import Activation.

Lemma dispatched_calls_of (ev : CustomEvent) (inputs : list Input) :
  dispatched (flat_map (calls_of ev) inputs)
  = repeat ev (length (filter activates inputs)).
Proof.
  induction inputs as [|[|e] inputs IH]; simpl.
  - reflexivity.
  - now rewrite IH.
  - destruct (Announced.activation_key e); simpl; now rewrite IH.
Qed.

Lemma prevented_calls_of (ev : CustomEvent) (inputs : list Input) :
  prevented (flat_map (calls_of ev) inputs) = activation_presses inputs.
Proof.
  induction inputs as [|[|e] inputs IH]; simpl.
  - reflexivity.
  - assumption.
  - destruct (Announced.activation_key e); simpl; now rewrite IH.
Qed.

Lemma card_deliver_exec (i : Input) (w : World ProfileCard.props) :
  execState (ProfileCard.deliver i) w
  = {| this := this w;
       calls := (calls w
                 ++ if ProfileCard.clickable (this w)
                    then calls_of (Announced.profile_click (this w)) i
                    else [])%list |}.
Proof.
  destruct i as [|e]; simpl ProfileCard.deliver.
  - rewrite card_handleClick_exec.
    destruct (ProfileCard.clickable (this w)); simpl; [reflexivity|].
    now rewrite app_nil_r, world_eta.
  - rewrite card_handleKeyDown_exec.
    destruct (ProfileCard.clickable (this w)); simpl;
      [destruct (Announced.activation_key e); simpl; [reflexivity|] |];
      now rewrite app_nil_r, world_eta.
Qed.

Lemma badge_deliver_exec (i : Input) (w : World SkillBadge.props) :
  execState (SkillBadge.deliver i) w
  = {| this := this w;
       calls := (calls w
                 ++ if SkillBadge.clickable (this w)
                    then calls_of (Announced.badge_click (this w)) i
                    else [])%list |}.
Proof.
  destruct i as [|e]; simpl SkillBadge.deliver.
  - rewrite badge_handleClick_exec.
    destruct (SkillBadge.clickable (this w)); simpl; [reflexivity|].
    now rewrite app_nil_r, world_eta.
  - rewrite badge_handleKeyDown_exec.
    destruct (SkillBadge.clickable (this w)); simpl;
      [destruct (Announced.activation_key e); simpl; [reflexivity|] |];
      now rewrite app_nil_r, world_eta.
Qed.

Lemma card_deliver_all_exec (inputs : list Input)
  (w : World ProfileCard.props) :
  execState (ProfileCard.deliver_all inputs) w
  = {| this := this w;
       calls := (calls w
                 ++ if ProfileCard.clickable (this w)
                    then flat_map (calls_of (Announced.profile_click (this w)))
                           inputs
                    else [])%list |}.
Proof.
  revert w; induction inputs as [|i inputs IH]; intros w.
  - simpl. destruct (ProfileCard.clickable (this w));
      now rewrite app_nil_r, world_eta.
  - change (ProfileCard.deliver_all (i :: inputs))
      with (ProfileCard.deliver i ;; ProfileCard.deliver_all inputs).
    rewrite execState_seq, IH, card_deliver_exec. simpl.
    destruct (ProfileCard.clickable (this w)).
    + now rewrite <- app_assoc.
    + now rewrite !app_nil_r.
Qed.

Lemma badge_deliver_all_exec (inputs : list Input)
  (w : World SkillBadge.props) :
  execState (SkillBadge.deliver_all inputs) w
  = {| this := this w;
       calls := (calls w
                 ++ if SkillBadge.clickable (this w)
                    then flat_map (calls_of (Announced.badge_click (this w)))
                           inputs
                    else [])%list |}.
Proof.
  revert w; induction inputs as [|i inputs IH]; intros w.
  - simpl. destruct (SkillBadge.clickable (this w));
      now rewrite app_nil_r, world_eta.
  - change (SkillBadge.deliver_all (i :: inputs))
      with (SkillBadge.deliver i ;; SkillBadge.deliver_all inputs).
    rewrite execState_seq, IH, badge_deliver_exec. simpl.
    destruct (SkillBadge.clickable (this w)).
    + now rewrite <- app_assoc.
    + now rewrite !app_nil_r.
Qed.

End Traces.

(** X1.  On either component the calls a sequence of clicks and key presses
    makes are, input by input and in order: one [dispatchEvent] for a click;
    [preventDefault] and then [dispatchEvent] for a press of Enter or Space;
    nothing for any other key; and nothing at all when [clickable] is off.
    The event is always the announced one for the current properties. *)
Theorem input_sequence_trace :
  (forall (inputs : list Input) (w : World ProfileCard.props),
      calls (execState (ProfileCard.deliver_all inputs) w)
      = (calls w
         ++ if ProfileCard.clickable (this w)
            then flat_map
                   (Activation.calls_of (Announced.profile_click (this w)))
                   inputs
            else [])%list)
  /\ (forall (inputs : list Input) (w : World SkillBadge.props),
        calls (execState (SkillBadge.deliver_all inputs) w)
        = (calls w
           ++ if SkillBadge.clickable (this w)
              then flat_map
                     (Activation.calls_of (Announced.badge_click (this w)))
                     inputs
              else [])%list).
Proof.
  split; intros inputs w.
  - now rewrite card_deliver_all_exec.
  - now rewrite badge_deliver_all_exec.
Qed.

(** X2.  Over any sequence of inputs, [preventDefault] is called exactly on
    the presses of Enter and Space, once each and in the order they came,
    when [clickable] is on; it is never called for another key, nor for a
    click. *)
Theorem default_prevented_on_activation_keys_only :
  (forall (inputs : list Input) (w : World ProfileCard.props),
      prevented (calls (execState (ProfileCard.deliver_all inputs) w))
      = (prevented (calls w)
         ++ if ProfileCard.clickable (this w)
            then Activation.activation_presses inputs
            else [])%list)
  /\ (forall (inputs : list Input) (w : World SkillBadge.props),
        prevented (calls (execState (SkillBadge.deliver_all inputs) w))
        = (prevented (calls w)
           ++ if SkillBadge.clickable (this w)
              then Activation.activation_presses inputs
              else [])%list).
Proof.
  split; intros inputs w.
  - rewrite card_deliver_all_exec. simpl calls. rewrite prevented_app.
    destruct (ProfileCard.clickable (this w)); [|reflexivity].
    now rewrite prevented_calls_of.
  - rewrite badge_deliver_all_exec. simpl calls. rewrite prevented_app.
    destruct (SkillBadge.clickable (this w)); [|reflexivity].
    now rewrite prevented_calls_of.
Qed.

(** X3.  On a clickable component a sequence of inputs dispatches as many
    events as it holds activations (clicks and presses of Enter or Space),
    and every one of them is the announced event of the instance. *)
Theorem one_event_per_activation :
  (forall (inputs : list Input) (w : World ProfileCard.props),
      ProfileCard.clickable (this w) = true ->
      dispatched (calls (execState (ProfileCard.deliver_all inputs) w))
      = (dispatched (calls w)
         ++ repeat (Announced.profile_click (this w))
              (length (filter Activation.activates inputs)))%list)
  /\ (forall (inputs : list Input) (w : World SkillBadge.props),
        SkillBadge.clickable (this w) = true ->
        dispatched (calls (execState (SkillBadge.deliver_all inputs) w))
        = (dispatched (calls w)
           ++ repeat (Announced.badge_click (this w))
                (length (filter Activation.activates inputs)))%list).
Proof.
  split; intros inputs w Hon.
  - rewrite card_deliver_all_exec, Hon. simpl calls.
    now rewrite dispatched_app, dispatched_calls_of.
  - rewrite badge_deliver_all_exec, Hon. simpl calls.
    now rewrite dispatched_app, dispatched_calls_of.
Qed.

Lemma one_event_per_activation_witness :
  length
    (dispatched
       (calls (execState
                 (SkillBadge.deliver_all
                    [Click; KeyDown {| key := "a" |}; KeyDown Announced.Space;
                     KeyDown {| key := "Tab" |}; KeyDown Announced.Enter])
                 {| this := {| SkillBadge.skill := "Lit";
                               SkillBadge.level := "intermediate";
                               SkillBadge.clickable := true |};
                    calls := [] |})))
  = 3.
Proof.
  exact (f_equal (@length CustomEvent)
           (proj2 one_event_per_activation
              [Click; KeyDown {| key := "a" |}; KeyDown Announced.Space;
               KeyDown {| key := "Tab" |}; KeyDown Announced.Enter]
              {| this := {| SkillBadge.skill := "Lit";
                            SkillBadge.level := "intermediate";
                            SkillBadge.clickable := true |};
                 calls := [] |}
              eq_refl)).
Defined.

Lemma app_one_neq {A} (l : list A) (x : A) : (l ++ [x])%list <> l.
Proof.
  intros E. apply (f_equal (@length A)) in E.
  rewrite length_app in E. simpl in E. lia.
Qed.

(** X4.  What the root announces is what the handlers do: the root has
    [role] button exactly when a click dispatches an event, and [tabindex]
    0 exactly when a press of Enter does. *)
Theorem announced_role_matches_behaviour :
  (forall w : World ProfileCard.props,
      (getAttribute "role" (evalState ProfileCard.render w) = Some "button"
       <-> dispatched (calls (execState ProfileCard._handleClick w))
           <> dispatched (calls w))
      /\ (getAttribute "tabindex" (evalState ProfileCard.render w) = Some "0"
          <-> dispatched
                (calls (execState
                          (ProfileCard._handleKeyDown Announced.Enter) w))
              <> dispatched (calls w)))
  /\ (forall w : World SkillBadge.props,
        (getAttribute "role" (evalState SkillBadge.render w) = Some "button"
         <-> dispatched (calls (execState SkillBadge._handleClick w))
             <> dispatched (calls w))
        /\ (getAttribute "tabindex" (evalState SkillBadge.render w) = Some "0"
            <-> dispatched
                  (calls (execState
                            (SkillBadge._handleKeyDown Announced.Enter) w))
                <> dispatched (calls w))).
Proof.
  split; intros w.
  - rewrite card_handleClick_exec, card_handleKeyDown_exec.
    destruct w as [[nm ttl avt clk] cs]. destruct clk; simpl;
      rewrite ?dispatched_app; simpl;
      repeat split; try discriminate; try congruence;
      intros _; apply app_one_neq.
  - rewrite badge_handleClick_exec, badge_handleKeyDown_exec.
    destruct w as [[skl lvl clk] cs]. destruct clk; simpl;
      rewrite ?dispatched_app; simpl;
      repeat split; try discriminate; try congruence;
      intros _; apply app_one_neq.
Qed.

(** ** The structure of the rendered views *)

(** X5.  A rendered profile-card holds a [p] element exactly when [title]
    is not empty, and then just one: it has the class [title] and the title
    as its only text. *)
Theorem profile_card_title_paragraph (w : World ProfileCard.props) :
  (ProfileCard.title (this w) = "" ->
   elementsByTagName "p" (evalState ProfileCard.render w) = [])
  /\ (ProfileCard.title (this w) <> "" ->
      elementsByTagName "p" (evalState ProfileCard.render w)
      = [Element "p" [("class", "title")] []
           [Text (ProfileCard.title (this w))]]).
Proof.
  destruct w as [[nm ttl avt clk] cs]. simpl this. simpl ProfileCard.title.
  split.
  - intros ->. destruct avt; reflexivity.
  - intros Httl. destruct ttl as [|a ttl]; [congruence|].
    destruct avt; reflexivity.
Qed.

Lemma profile_card_title_paragraph_witness :
  elementsByTagName "p"
    (evalState ProfileCard.render
       {| this := {| ProfileCard.name := "John Doe";
                     ProfileCard.title := "";
                     ProfileCard.avatar := "https://example.com/avatar.jpg";
                     ProfileCard.clickable := false |};
          calls := [] |})
  = []
  /\ elementsByTagName "p"
       (evalState ProfileCard.render
          {| this := {| ProfileCard.name := "John Doe";
                        ProfileCard.title := "Frontend Developer";
                        ProfileCard.avatar := "";
                        ProfileCard.clickable := false |};
             calls := [] |})
     = [Element "p" [("class", "title")] [] [Text "Frontend Developer"]].
Proof.
  split.
  - exact (proj1 (profile_card_title_paragraph
                    {| this := {| ProfileCard.name := "John Doe";
                                  ProfileCard.title := "";
                                  ProfileCard.avatar :=
                                    "https://example.com/avatar.jpg";
                                  ProfileCard.clickable := false |};
                       calls := [] |}) eq_refl).
  - apply (proj2 (profile_card_title_paragraph
                    {| this := {| ProfileCard.name := "John Doe";
                                  ProfileCard.title := "Frontend Developer";
                                  ProfileCard.avatar := "";
                                  ProfileCard.clickable := false |};
                       calls := [] |})).
    simpl. discriminate.
Defined.


(** X7.  The root of a rendered profile-card has two children, the header
    and after it the content region, and the content region is a [div] that
    holds the one [slot] of the view and nothing else; no property changes
    this. *)
Theorem profile_card_content_slot (w : World ProfileCard.props) :
  (exists header,
      Tree.childNodes (evalState ProfileCard.render w)
      = [header;
         Element "div" [("class", "content")] [] [Element "slot" [] [] []]]
      /\ tagName header = Some "div"
      /\ getAttribute "class" header = Some "header"
      /\ elementsByTagName "slot" header = [])
  /\ elementsByTagName "slot" (evalState ProfileCard.render w)
     = [Element "slot" [] [] []].
Proof.
  destruct w as [[nm ttl avt clk] cs]. split.
  - eexists. split; [reflexivity|].
    repeat split; destruct avt, ttl; reflexivity.
  - destruct avt, ttl; reflexivity.
Qed.

(** X8.  In either rendered view the only listeners are the two on the
    root, [click] bound to [_handleClick] and [keydown] bound to
    [_handleKeyDown]; no inner element has a listener, whatever the
    properties. *)
Theorem listeners_on_root_only :
  (forall w : World ProfileCard.props,
      Tree.eventListeners (evalState ProfileCard.render w)
      = [("click", HandleClick); ("keydown", HandleKeyDown)]
      /\ Tree.allListeners (evalState ProfileCard.render w)
         = [("click", HandleClick); ("keydown", HandleKeyDown)])
  /\ (forall w : World SkillBadge.props,
        Tree.eventListeners (evalState SkillBadge.render w)
        = [("click", HandleClick); ("keydown", HandleKeyDown)]
        /\ Tree.allListeners (evalState SkillBadge.render w)
           = [("click", HandleClick); ("keydown", HandleKeyDown)]).
Proof.
  split.
  - intros [[nm ttl avt clk] cs]. split; [reflexivity|].
    destruct avt, ttl; reflexivity.
  - intros [[skl lvl clk] cs]. split; reflexivity.
Qed.

(** ** More on the classes of the badge *)

(** X9.  For every [level] string, valid or not, the root of a rendered
    skill-badge keeps the base class [badge], and carries [clickable]
    whenever the flag is on.  With the flag off [clickable] is absent unless
    the level string smuggles it in as one token among several; a level
    spelled exactly [clickable] is overwritten by the flag and adds nothing. *)
Theorem skill_badge_base_and_clickable_class (w : World SkillBadge.props) :
  In "badge" (classList (evalState SkillBadge.render w))
  /\ (SkillBadge.clickable (this w) = true ->
      In "clickable" (classList (evalState SkillBadge.render w)))
  /\ (SkillBadge.clickable (this w) = false ->
      (In "clickable" (classList (evalState SkillBadge.render w))
       <-> In "clickable" (tokens (SkillBadge.level (this w)))
           /\ SkillBadge.level (this w) <> "clickable")).
Proof.
  split; [|split].
  - apply badge_classList. now left.
  - intros Hon. apply badge_classList. right; left. now split.
  - intros Hoff. rewrite badge_classList, Hoff. split.
    + intros [E|[[_ E]|[Hin Himp]]]; [discriminate E | discriminate E |].
      split; [exact Hin|]. intros E. specialize (Himp E). discriminate Himp.
    + intros [Hin Hne]. right; right. split; [exact Hin|].
      intros E. contradiction.
Qed.

Lemma skill_badge_base_and_clickable_class_witness :
  In "clickable"
    (classList (evalState SkillBadge.render
                  {| this := {| SkillBadge.skill := "Lit";
                                SkillBadge.level := "expert";
                                SkillBadge.clickable := true |};
                     calls := [] |}))
  /\ ~ In "clickable"
         (classList (evalState SkillBadge.render
                       {| this := {| SkillBadge.skill := "Lit";
                                     SkillBadge.level := "clickable";
                                     SkillBadge.clickable := false |};
                          calls := [] |})).
Proof.
  split.
  - exact (proj1 (proj2 (skill_badge_base_and_clickable_class
                           {| this := {| SkillBadge.skill := "Lit";
                                         SkillBadge.level := "expert";
                                         SkillBadge.clickable := true |};
                              calls := [] |})) eq_refl).
  - intros H.
    apply (proj2 (proj2 (skill_badge_base_and_clickable_class
                           {| this := {| SkillBadge.skill := "Lit";
                                         SkillBadge.level := "clickable";
                                         SkillBadge.clickable := false |};
                              calls := [] |})) eq_refl) in H.
    destruct H as [_ H]. apply H. reflexivity.
Defined.


